(** * CPU usage monitor plugin ([landscape/monitor/cpuusage.py])

    A shallow embedding of the [CPUUsage] plugin: the parsing of the first
    line of the statistics file, the computation of the usage ratio from two
    successive samples, the persisted previous sample, and the buffer of
    points that [run] fills and [create_message] drains.

    Conventions of the embedding.
    - Python strings are [string]; lists are [list]; the persist store of the
      plugin is a finite map from keys to the lists of tokens stored there.
    - Python integers are [Z].
    - The float produced by [used_delta / float(divisor)] is represented by
      the exact rational quotient; rounding to a binary float and the range
      limit of [float()] are not represented.
    - A raised exception is the [Raise] constructor of [result].  The only
      [except] clause of the source catches [IOError]; [logging.error] has no
      effect on the plugin state and is left out. *)

From Stdlib Require Import ZArith QArith Ascii Lia.
From stdpp Require Import base option list strings gmap.

Local Open Scope Z_scope.

(** ** Exceptions and results *)

Inductive exn : Set :=
  | ValueError
  | IndexError.

Inductive result (A : Type) : Type :=
  | Raise (e : exn)
  | Ok (a : A).
Arguments Raise {A} e.
Arguments Ok {A} a.

#[global] Instance result_ret : MRet result := λ A a, Ok a.
#[global] Instance result_bind : MBind result := λ A B f m,
  match m with
  | Raise e => Raise e
  | Ok a => f a
  end.

(** ** Python string operations used by the plugin *)

Module Py.

Definition newline : ascii := ascii_of_nat 10.
Definition space : ascii := ascii_of_nat 32.

(** [f.readline()] on the text of a file: the characters up to and
    including the first newline, or the whole text when it has none. *)
Fixpoint readline (text : string) : string :=
  match text with
  | EmptyString => EmptyString
  | String c rest =>
      if Ascii.eqb c newline then String c EmptyString
      else String c (readline rest)
  end.

(** [s.replace(c, empty)] for a one-character [c]. *)
Fixpoint remove (c : ascii) (s : string) : string :=
  match s with
  | EmptyString => EmptyString
  | String a rest =>
      if Ascii.eqb a c then remove c rest else String a (remove c rest)
  end.

(** [s.split(sep)] for a one-character [sep]: every occurrence of [sep]
    ends a token, empty tokens are kept, and the result is never empty. *)
Fixpoint split (sep : ascii) (s : string) : list string :=
  match s with
  | EmptyString => [EmptyString]
  | String a rest =>
      if Ascii.eqb a sep then EmptyString :: split sep rest
      else match split sep rest with
           | tok :: toks => String a tok :: toks
           | [] => [String a EmptyString]
           end
  end.

(** The characters [int()] skips on both sides of a numeral. *)
Definition is_space (c : ascii) : bool :=
  let n := nat_of_ascii c in
  (Nat.eqb n 32 || (Nat.leb 9 n && Nat.leb n 13))%bool.

Definition is_digit (c : ascii) : bool :=
  let n := nat_of_ascii c in (Nat.leb 48 n && Nat.leb n 57)%bool.

Definition digit_value (c : ascii) : Z := Z.of_nat (nat_of_ascii c) - 48.

Fixpoint lstrip (s : string) : string :=
  match s with
  | EmptyString => EmptyString
  | String c rest => if is_space c then lstrip rest else s
  end.

Fixpoint rstrip (s : string) : string :=
  match s with
  | EmptyString => EmptyString
  | String c rest =>
      match rstrip rest with
      | EmptyString => if is_space c then EmptyString else String c EmptyString
      | r => String c r
      end
  end.

Definition strip (s : string) : string := rstrip (lstrip s).

Fixpoint digits (acc : Z) (s : string) : option Z :=
  match s with
  | EmptyString => Some acc
  | String c rest =>
      if is_digit c then digits (10 * acc + digit_value c) rest else None
  end.

Definition unsigned (s : string) : option Z :=
  match s with
  | EmptyString => None
  | _ => digits 0 s
  end.

(** [int(s)] on a string, in base ten, for ASCII numerals: surrounding white
    space, an optional sign, then one or more digits.  [None] stands for
    the [ValueError] of [int].  Digits grouped with underscores and digits
    outside ASCII, which some versions of Python accept, are read as errors
    here; no statement below depends on them. *)
Definition parse_int (s : string) : option Z :=
  match strip s with
  | String c rest =>
      if Ascii.eqb c (ascii_of_nat 45) then Z.opp <$> unsigned rest
      else if Ascii.eqb c (ascii_of_nat 43) then unsigned rest
      else unsigned (String c rest)
  | EmptyString => None
  end.

Definition int (s : string) : result Z :=
  match parse_int s with
  | Some z => Ok z
  | None => Raise ValueError
  end.

(** [l[i]] for a non-negative [i]. *)
Definition index {A} (l : list A) (i : nat) : result A :=
  match l !! i with
  | Some x => Ok x
  | None => Raise IndexError
  end.

End Py.

(** ** The plugin *)

Definition LAST_MESURE_KEY : string := "last-cpu-usage-mesure".
Definition ACCUMULATOR_KEY : string := "cpu-usage-accumulator".

(** What [open(stat_file)] followed by [f.readline()] meets: an [IOError],
    or a file with some text. *)
Inductive stat_source : Type :=
  | Unreadable
  | Readable (text : string).

(** The tokens kept from the first line: the line without its newline, split
    at every space, without the first two tokens. *)
Definition stat_fields (text : string) : list string :=
  let stat := Py.readline text in
  let fields := Py.remove Py.newline stat in
  let fields := Py.split Py.space fields in
  drop 2 fields.

(** The variables of the [for] loop of [_get_cpu_usage]. *)
Record loop_vars : Type := LoopVars {
  delta_fields : list Z;
  used_delta : Z;
  reboot : bool
}.

Definition loop_init : loop_vars :=
  {| delta_fields := []; used_delta := 0; reboot := false |}.

(** The [for i in range(len(fields))] loop, over the indices still to visit.
    A negative delta sets [reboot] and leaves the loop. *)
Fixpoint scan (indices : list nat) (fields previous_fields : list string)
    (v : loop_vars) : result loop_vars :=
  match indices with
  | [] => Ok v
  | i :: later =>
      f ← Py.index fields i;
      a ← Py.int f;
      p ← Py.index previous_fields i;
      b ← Py.int p;
      let delta := a - b in
      if delta <? 0 then
        Ok {| delta_fields := delta_fields v;
              used_delta := used_delta v;
              reboot := true |}
      else
        let delta_fields' := delta_fields v ++ [delta] in
        used_delta' ←
          (if negb (Nat.eqb i 3) then
             d ← Py.index delta_fields' i; Ok (used_delta v + d)
           else Ok (used_delta v));
        scan later fields previous_fields
          {| delta_fields := delta_fields';
             used_delta := used_delta';
             reboot := reboot v |}
  end.

Definition Qltb (x y : Q) : bool := negb (Qle_bool y x).

(** The ratio of the tick from the previous sample, before the range check. *)
Definition usage_of (fields previous_fields : list string)
    : result (option Q) :=
  v ← scan (seq 0 (length fields)) fields previous_fields loop_init;
  if negb (reboot v) then
    idle_delta ← Py.index (delta_fields v) 3;
    let divisor := idle_delta + used_delta v in
    if negb (divisor =? 0) then
      Ok (Some (inject_Z (used_delta v) / inject_Z divisor)%Q)
    else Ok None
  else Ok None.

(** The final range check: a ratio outside [0, 1] is dropped. *)
Definition range_check (r : option Q) : option Q :=
  match r with
  | Some q => if (Qltb q 0 || Qltb 1 q)%bool then None else Some q
  | None => None
  end.
Arguments range_check : simpl never.

(** [_get_cpu_usage]: the returned ratio ([None] is Python's [None]) and
    the persist store after the call.  When the call raises, the store is as
    before: its only write is the last statement before [return]. *)
Definition _get_cpu_usage (persist : gmap string (list string))
    (stat_file : stat_source)
    : result (option Q * gmap string (list string)) :=
  match stat_file with
  | Unreadable => Ok (None, persist)
  | Readable text =>
      let fields := stat_fields text in
      r ← match persist !! LAST_MESURE_KEY with
          | Some previous_fields => usage_of fields previous_fields
          | None => Ok None
          end;
      Ok (range_check r, <[LAST_MESURE_KEY := fields]> persist)
  end.

(** ** The orchestration: [run], [create_message], [send_message]

    The accumulator ([landscape.accumulate.Accumulator]) and the coverage
    monitor ([landscape.lib.monitor.CoverageMonitor]) are collaborators
    defined outside this module; they are parameters here.  The accumulator is
    built on the plugin's persist store, so it receives and returns the whole
    store: the entries of the plugin and its own data. *)

Record store (A : Type) : Type := Store {
  entries : gmap string (list string);
  accumulator_data : A
}.
Arguments Store {A} _ _.
Arguments entries {A} _.
Arguments accumulator_data {A} _.

Record plugin (Point Monitor A : Type) : Type := Plugin {
  _persist : store A;
  _monitor : Monitor;
  _cpu_usage_points : list Point
}.
Arguments Plugin {Point Monitor A} _ _ _.
Arguments _persist {Point Monitor A} _.
Arguments _monitor {Point Monitor A} _.
Arguments _cpu_usage_points {Point Monitor A} _.

(** The dictionary built by [create_message]. *)
Record message (Point : Type) : Type := Message {
  type : string;
  cpu_usages : list Point
}.
Arguments Message {Point} _ _.
Arguments type {Point} _.
Arguments cpu_usages {Point} _.

Section Orchestration.
Context {Point Monitor A : Type}.
(** [self._monitor.ping()] *)
Variable ping : Monitor → Monitor.
(** [self._accumulate(new_timestamp, new_cpu_usage, key)]: the step data,
    if a step was completed, and the store afterwards. *)
Variable accumulate : store A → Z → Q → string → option Point * store A.

Definition create_message (self : plugin Point Monitor A)
    : message Point * plugin Point Monitor A :=
  let cpu_points := _cpu_usage_points self in
  ({| type := "cpu-usage"; cpu_usages := cpu_points |},
   {| _persist := _persist self;
      _monitor := _monitor self;
      _cpu_usage_points := [] |}).

(** [send_message]: the message handed to the broker with its [urgent]
    flag, if any, and the plugin afterwards. *)
Definition send_message (self : plugin Point Monitor A) (urgent : bool)
    : option (message Point * bool) * plugin Point Monitor A :=
  let '(msg, self) := create_message self in
  if negb (Nat.eqb (length (cpu_usages msg)) 0) then (Some (msg, urgent), self)
  else (None, self).

(** [exchange]: the broker calls [send_message] only when the message type
    is accepted. *)
Definition exchange (self : plugin Point Monitor A) (accepted urgent : bool)
    : option (message Point * bool) * plugin Point Monitor A :=
  if accepted then send_message self urgent else (None, self).

(** The first part of [run], up to the value of [step_data].  The third
    component is the exception that ended the tick, if one was raised. *)
Definition run_step_data (self : plugin Point Monitor A)
    (new_timestamp : Z) (stat_file : stat_source)
    : plugin Point Monitor A * option Point * option exn :=
  let self := {| _persist := _persist self;
                 _monitor := ping (_monitor self);
                 _cpu_usage_points := _cpu_usage_points self |} in
  match _get_cpu_usage (entries (_persist self)) stat_file with
  | Raise e => (self, None, Some e)
  | Ok (new_cpu_usage, entries') =>
      let persist := {| entries := entries';
                        accumulator_data :=
                          accumulator_data (_persist self) |} in
      let '(step_data, persist) :=
        match new_cpu_usage with
        | Some usage =>
            accumulate persist new_timestamp usage ACCUMULATOR_KEY
        | None => (None, persist)
        end in
      ({| _persist := persist;
          _monitor := _monitor self;
          _cpu_usage_points := _cpu_usage_points self |},
       step_data, None)
  end.

(** [run]: one tick.  [new_timestamp] is [int(self._create_time())]. *)
Definition run (self : plugin Point Monitor A)
    (new_timestamp : Z) (stat_file : stat_source)
    : plugin Point Monitor A * option exn :=
  let '(self, step_data, raised) :=
    run_step_data self new_timestamp stat_file in
  match step_data with
  | Some point =>
      ({| _persist := _persist self;
          _monitor := _monitor self;
          _cpu_usage_points := _cpu_usage_points self ++ [point] |},
       raised)
  | None => (self, raised)
  end.

(** What the reactor, the broker and other callers do with the plugin over
    time. *)
Inductive call : Type :=
  | Tick (new_timestamp : Z) (stat_file : stat_source)
  | CreateMessage
  | SendMessage (urgent : bool)
  | Exchange (accepted urgent : bool).

(** The points of a message handed to the broker, if any. *)
Definition sent_points (out : option (message Point * bool)) : list Point :=
  match out with
  | Some (msg, _) => cpu_usages msg
  | None => []
  end.

(** One call: the points it hands over, the point the accumulator completed
    during it, and the plugin afterwards. *)
Definition step (c : call) (self : plugin Point Monitor A)
    : list Point * list Point * plugin Point Monitor A :=
  match c with
  | Tick t f =>
      ([], option_list (run_step_data self t f).1.2, (run self t f).1)
  | CreateMessage =>
      let '(msg, self) := create_message self in (cpu_usages msg, [], self)
  | SendMessage urgent =>
      let '(out, self) := send_message self urgent in
      (sent_points out, [], self)
  | Exchange accepted urgent =>
      let '(out, self) := exchange self accepted urgent in
      (sent_points out, [], self)
  end.

(** A sequence of calls: the points handed over, the points completed, and
    the plugin at its end. *)
Fixpoint play (calls : list call) (self : plugin Point Monitor A)
    : list Point * list Point * plugin Point Monitor A :=
  match calls with
  | [] => ([], [], self)
  | c :: later =>
      let '(sent, produced, self) := step c self in
      let '(sent', produced', self') := play later self in
      (sent ++ sent', produced ++ produced', self')
  end.

End Orchestration.

(** ** Vocabulary of the specification *)

(** A list of tokens denotes a list of integers. *)
Definition denotes (tokens : list string) (counters : list Z) : Prop :=
  mapM Py.parse_int tokens = Some counters.

(** The per-field deltas, new minus previous. *)
Definition deltas (new previous : list Z) : list Z :=
  zip_with Z.sub new previous.

Definition sum_Z (l : list Z) : Z := foldr Z.add 0 l.

(** [used]: the sum of the deltas of all fields except the idle field. *)
Definition used (d : list Z) : Z := sum_Z (delete 3%nat d).

(** [idle]: the delta of the idle field. *)
Definition idle (d : list Z) : Z := default 0 (d !! 3%nat).


(** The ratio [used / (used + idle)] of the specification. *)
Definition ratio (d : list Z) : Q :=
  (inject_Z (used d) / inject_Z (used d + idle d))%Q.

(** The sum, from position [i] on, of the deltas that are not at the idle
    index: what the loop adds to [used_delta]. *)
Fixpoint used_from (i : nat) (d : list Z) : Z :=
  match d with
  | [] => 0
  | x :: later => (if Nat.eqb i 3 then 0 else x) + used_from (S i) later
  end.

(** [i] is the position of the first negative delta. *)
Definition first_negative (d : list Z) (i : nat) : Prop :=
  (∃ x, d !! i = Some x ∧ x < 0) ∧
  ∀ j x, (j < i)%nat → d !! j = Some x → 0 ≤ x.

(** A character occurs in a string. *)
Fixpoint has_char (c : ascii) (s : string) : bool :=
  match s with
  | EmptyString => false
  | String a rest => (Ascii.eqb a c || has_char c rest)%bool
  end.

(** Tokens written one after the other with [sep] between them. *)
Fixpoint join (sep : ascii) (tokens : list string) : string :=
  match tokens with
  | [] => EmptyString
  | [t] => t
  | t :: later => t +:+ String sep (join sep later)
  end.

(** A decimal numeral: one or more ASCII digits. *)
Fixpoint all_digits (s : string) : bool :=
  match s with
  | EmptyString => true
  | String c rest => (Py.is_digit c && all_digits rest)%bool
  end.

Definition numeral (s : string) : bool :=
  match s with
  | EmptyString => false
  | _ => all_digits s
  end.

(** The integer a numeral stands for, in positional notation. *)
Fixpoint numeral_value (s : string) : Z :=
  match s with
  | EmptyString => 0
  | String c rest =>
      Py.digit_value c * 10 ^ Z.of_nat (String.length rest)
      + numeral_value rest
  end.

(** A label: a token with neither a space nor a newline in it. *)
Definition label_token (s : string) : bool :=
  (negb (has_char Py.space s) && negb (has_char Py.newline s))%bool.

(** The first line of [/proc/stat]: the label, two spaces, and the counters
    with one space between them. *)
Definition stat_line (label : string) (tokens : list string) : string :=
  label +:+ String Py.space (String Py.space (join Py.space tokens)).

(** ** Example samples *)

Definition end_of_line : string := String Py.newline EmptyString.

(** user=100, idle=200, then user=150, idle=220. *)
Definition sample_t0 : list string :=
  ["100"; "0"; "0"; "200"; "0"; "0"; "0"; "0"; "0"; "0"].
Definition counters_t0 : list Z := [100; 0; 0; 200; 0; 0; 0; 0; 0; 0].
Definition text_t0 : string := "cpu  100 0 0 200 0 0 0 0 0 0" +:+ end_of_line.
Definition text_t30 : string := "cpu  150 0 0 220 0 0 0 0 0 0" +:+ end_of_line.
Definition counters_t30 : list Z := [150; 0; 0; 220; 0; 0; 0; 0; 0; 0].
Definition store_t0 : gmap string (list string) :=
  {[ LAST_MESURE_KEY := sample_t0 ]}.

(** user=500 before a reboot, user=10 after it. *)
Definition sample_before_reboot : list string :=
  ["500"; "20"; "300"; "9000"; "40"; "0"; "7"; "0"; "0"; "0"].
Definition counters_before_reboot : list Z :=
  [500; 20; 300; 9000; 40; 0; 7; 0; 0; 0].
Definition text_after_reboot : string :=
  "cpu  10 0 5 80 1 0 0 0 0 0" +:+ end_of_line.
Definition counters_after_reboot : list Z := [10; 0; 5; 80; 1; 0; 0; 0; 0; 0].
Definition store_before_reboot : gmap string (list string) :=
  {[ LAST_MESURE_KEY := sample_before_reboot ]}.

(** A first line cut short after three counters, and one with a counter
    that is no number. *)
Definition text_short : string := "cpu  100 0 50" +:+ end_of_line.
Definition text_not_a_number : string :=
  "cpu  150 0 0 n/a 0 0 0 0 0 0" +:+ end_of_line.

(** A first line with one space after the label. *)
Definition text_one_space : string :=
  "cpu 100 0 0 200 0 0 0 0 0 0" +:+ end_of_line.

(** A plugin with two points in its buffer, an accumulator that completes
    no step, and a monitor that counts the pings. *)
Definition idle_accumulate (persist : store unit) (_ : Z) (_ : Q) (_ : string)
    : option (Z * Q) * store unit :=
  (None, persist).
Definition plugin_two_points : plugin (Z * Q) nat unit :=
  {| _persist := {| entries := ∅; accumulator_data := () |};
     _monitor := 0%nat;
     _cpu_usage_points := [(300, (1 # 2)%Q); (600, (1 # 4)%Q)] |}.
Definition two_ticks : list (Z * stat_source) :=
  [(1000, Readable text_t0); (1030, Readable text_t30)].

(** ** Sequences of reads *)

(** How often a character occurs in a string. *)
Fixpoint count_char (c : ascii) (s : string) : nat :=
  match s with
  | EmptyString => 0%nat
  | String a rest =>
      ((if Ascii.eqb a c then 1 else 0) + count_char c rest)%nat
  end.

(** The persist store after [_get_cpu_usage] was called on each source in
    turn.  A call that raises leaves the store as it found it. *)
Fixpoint feed (sources : list stat_source)
    (persist : gmap string (list string)) : gmap string (list string) :=
  match sources with
  | [] => persist
  | source :: later =>
      match _get_cpu_usage persist source with
      | Ok (_, persist') => feed later persist'
      | Raise _ => feed later persist
      end
  end.


(** The number of ticks among the calls. *)
Fixpoint ticks_in (calls : list call) : nat :=
  match calls with
  | [] => 0%nat
  | Tick _ _ :: later => S (ticks_in later)
  | _ :: later => ticks_in later
  end.

(** ** Strings: lines and tokens *)

Section Strings.
Implicit Types (s t : string) (c : ascii).

Lemma has_char_app c s t :
  has_char c (s +:+ t) = (has_char c s || has_char c t)%bool.
Proof.
  induction s as [|a s IH]; simpl; [done|].
  rewrite IH. by destruct (Ascii.eqb a c).
Qed.

Lemma readline_app s t :
  has_char Py.newline s = false →
  Py.readline (s +:+ String Py.newline t) = s +:+ String Py.newline EmptyString.
Proof.
  induction s as [|a s IH]; simpl; intros H; [done|].
  apply orb_false_iff in H as [-> H]. by rewrite IH.
Qed.

Lemma readline_no_newline s :
  has_char Py.newline s = false → Py.readline s = s.
Proof.
  induction s as [|a s IH]; simpl; intros H; [done|].
  apply orb_false_iff in H as [-> H]. by rewrite IH.
Qed.

Lemma remove_absent c s : has_char c s = false → Py.remove c s = s.
Proof.
  induction s as [|a s IH]; simpl; intros H; [done|].
  apply orb_false_iff in H as [-> H]. by rewrite IH.
Qed.

Lemma remove_app c s t : Py.remove c (s +:+ t) = Py.remove c s +:+ Py.remove c t.
Proof.
  induction s as [|a s IH]; simpl; [done|].
  destruct (Ascii.eqb a c); simpl; by rewrite IH.
Qed.

Lemma split_not_nil c s : Py.split c s ≠ [].
Proof.
  destruct s as [|a s]; simpl; [done|].
  destruct (Ascii.eqb a c); [done|]. by destruct (Py.split c s).
Qed.

Lemma split_absent c s : has_char c s = false → Py.split c s = [s].
Proof.
  induction s as [|a s IH]; simpl; intros H; [done|].
  apply orb_false_iff in H as [-> H]. by rewrite IH.
Qed.

Lemma split_app c s t :
  has_char c s = false → Py.split c (s +:+ String c t) = s :: Py.split c t.
Proof.
  induction s as [|a s IH]; simpl; intros H.
  - by rewrite Ascii.eqb_refl.
  - apply orb_false_iff in H as [-> H]. by rewrite IH.
Qed.

Lemma split_join c (tokens : list string) :
  Forall (λ t, has_char c t = false) tokens → tokens ≠ [] →
  Py.split c (join c tokens) = tokens.
Proof.
  induction 1 as [|t [|t' later] Ht Hl IH]; intros Hne; [done| |].
  - by apply split_absent.
  - change (join c (t :: t' :: later))
      with (t +:+ String c (join c (t' :: later))).
    rewrite split_app by done. by rewrite IH.
Qed.

Lemma has_char_join c sep (tokens : list string) :
  Ascii.eqb sep c = false →
  Forall (λ t, has_char c t = false) tokens →
  has_char c (join sep tokens) = false.
Proof.
  intros Hsep. induction 1 as [|t [|t' later] Ht Hl IH]; [done..|].
  change (join sep (t :: t' :: later))
    with (t +:+ String sep (join sep (t' :: later))).
  rewrite has_char_app. cbn [has_char]. by rewrite Ht, Hsep, IH.
Qed.

(** A character that is not a digit does not occur in a numeral. *)
Lemma all_digits_has_char c s :
  Py.is_digit c = false → all_digits s = true → has_char c s = false.
Proof.
  intros Hc. induction s as [|a s IH]; simpl; [done|].
  intros [Ha Hs]%andb_true_iff. rewrite IH by done.
  destruct (Ascii.eqb_spec a c) as [->|]; [congruence|done].
Qed.

Lemma numeral_all_digits s : numeral s = true → all_digits s = true.
Proof. by destruct s. Qed.

Lemma lstrip_numeral s : numeral s = true → Py.lstrip s = s.
Proof.
  destruct s as [|a s]; simpl; [done|].
  intros [Ha _]%andb_true_iff.
  assert (Py.is_space a = false) as ->; [|done].
  destruct (Py.is_space a) eqn:Hsp; [|done].
  unfold Py.is_space, Py.is_digit in *.
  destruct (Nat.eqb_spec (nat_of_ascii a) 32), (Nat.leb_spec 9 (nat_of_ascii a)),
    (Nat.leb_spec (nat_of_ascii a) 13), (Nat.leb_spec 48 (nat_of_ascii a));
    simpl in *; try done; lia.
Qed.

Lemma digit_not_space c : Py.is_digit c = true → Py.is_space c = false.
Proof.
  unfold Py.is_space, Py.is_digit.
  destruct (Nat.eqb_spec (nat_of_ascii c) 32), (Nat.leb_spec 9 (nat_of_ascii c)),
    (Nat.leb_spec (nat_of_ascii c) 13), (Nat.leb_spec 48 (nat_of_ascii c));
    simpl; try done; lia.
Qed.

Lemma rstrip_all_digits s : all_digits s = true → Py.rstrip s = s.
Proof.
  induction s as [|a s IH]; simpl; [done|].
  intros [Ha Hs]%andb_true_iff. rewrite IH by done.
  destruct s; [|done]. by rewrite digit_not_space.
Qed.

Lemma digits_all_digits s acc :
  all_digits s = true →
  Py.digits acc s
  = Some (acc * 10 ^ Z.of_nat (String.length s) + numeral_value s).
Proof.
  revert acc. induction s as [|a s IH]; simpl String.length; intros acc.
  - intros _. simpl. f_equal. lia.
  - intros [Ha Hs]%andb_true_iff. cbn [Py.digits numeral_value].
    rewrite Ha, IH by done. f_equal.
    rewrite Nat2Z.inj_succ, Z.pow_succ_r by lia. lia.
Qed.

Lemma digit_value_nonneg c : Py.is_digit c = true → 0 ≤ Py.digit_value c.
Proof.
  unfold Py.is_digit, Py.digit_value.
  intros [H _]%andb_true_iff. apply Nat.leb_le in H. lia.
Qed.

Lemma numeral_value_nonneg s : all_digits s = true → 0 ≤ numeral_value s.
Proof.
  induction s as [|a s IH]; simpl; [done|].
  intros [Ha Hs]%andb_true_iff.
  pose proof (digit_value_nonneg _ Ha). specialize (IH Hs).
  assert (0 ≤ 10 ^ Z.of_nat (String.length s)) by (apply Z.pow_nonneg; lia).
  nia.
Qed.

(** [int] reads a numeral as the integer it stands for. *)
Lemma parse_int_numeral s :
  numeral s = true → Py.parse_int s = Some (numeral_value s).
Proof.
  intros Hn. pose proof (numeral_all_digits _ Hn) as Hd.
  unfold Py.parse_int, Py.strip.
  rewrite lstrip_numeral, rstrip_all_digits by done.
  destruct s as [|a s]; [done|].
  simpl in Hd. apply andb_true_iff in Hd as [Ha Hs].
  assert (Ascii.eqb a (ascii_of_nat 45) = false) as ->.
  { destruct (Ascii.eqb_spec a (ascii_of_nat 45)) as [->|]; done. }
  assert (Ascii.eqb a (ascii_of_nat 43) = false) as ->.
  { destruct (Ascii.eqb_spec a (ascii_of_nat 43)) as [->|]; done. }
  unfold Py.unsigned. rewrite digits_all_digits by (simpl; by rewrite Ha, Hs).
  f_equal.
Qed.

Lemma denotes_numerals (tokens : list string) :
  Forall (λ t, numeral t = true) tokens →
  denotes tokens (numeral_value <$> tokens).
Proof.
  intros H. apply mapM_Some_2. induction H; constructor; [|done].
  by apply parse_int_numeral.
Qed.

End Strings.

(** ** The loop over the fields *)

Section Scan.
Implicit Types (fields previous_fields : list string) (v : loop_vars).

Lemma denotes_length tokens counters :
  denotes tokens counters → length tokens = length counters.
Proof. apply length_mapM. Qed.

Lemma denotes_nil_inv counters : denotes [] counters → counters = [].
Proof. intros H%denotes_length. by destruct counters. Qed.

Lemma denotes_cons_inv t tokens counters :
  denotes (t :: tokens) counters →
  ∃ n later, counters = n :: later ∧ Py.parse_int t = Some n
             ∧ denotes tokens later.
Proof.
  intros H%mapM_Some_1. apply Forall2_cons_inv_l in H as (n & later & ? & ? & ->).
  exists n, later. split_and!; [done..|]. by apply mapM_Some_2.
Qed.

(** Tokens denoting [n1 ++ x :: n2] split in the same way. *)
Lemma denotes_middle_inv tokens n1 x n2 :
  denotes tokens (n1 ++ x :: n2) →
  ∃ t1 tx t2, tokens = t1 ++ tx :: t2 ∧ denotes t1 n1
              ∧ Py.parse_int tx = Some x ∧ length t1 = length n1.
Proof.
  intros H%mapM_Some_1.
  apply Forall2_app_inv_r in H as (t1 & t' & H1 & H2 & ->).
  apply Forall2_cons_inv_r in H2 as (tx & t2 & Hx & _ & ->).
  exists t1, tx, t2. split_and!; [done| |done|].
  - by apply mapM_Some_2.
  - by eapply Forall2_length.
Qed.

(** One turn of the loop on a delta that is not negative. *)
Lemma scan_step i later fields previous_fields v f p a b :
  fields !! i = Some f → Py.parse_int f = Some a →
  previous_fields !! i = Some p → Py.parse_int p = Some b →
  0 ≤ a - b → length (delta_fields v) = i →
  scan (i :: later) fields previous_fields v
  = scan later fields previous_fields
      {| delta_fields := delta_fields v ++ [a - b];
         used_delta := used_delta v + (if Nat.eqb i 3 then 0 else a - b);
         reboot := reboot v |}.
Proof.
  intros Hf Ha Hp Hb Hd Hlen. cbn [scan]. unfold Py.index, Py.int.
  rewrite Hf. cbn. rewrite Ha. cbn. rewrite Hp. cbn. rewrite Hb. cbn.
  destruct (Z.ltb_spec (a - b) 0) as [|_]; [lia|].
  destruct (Nat.eqb i 3); cbn.
  - by rewrite Z.add_0_r.
  - by rewrite (list_lookup_middle _ _ _ i).
Qed.

(** One turn of the loop on a negative delta: [break]. *)
Lemma scan_break i later fields previous_fields v f p a b :
  fields !! i = Some f → Py.parse_int f = Some a →
  previous_fields !! i = Some p → Py.parse_int p = Some b →
  a - b < 0 →
  scan (i :: later) fields previous_fields v
  = Ok {| delta_fields := delta_fields v;
          used_delta := used_delta v;
          reboot := true |}.
Proof.
  intros Hf Ha Hp Hb Hd. cbn [scan]. unfold Py.index, Py.int.
  rewrite Hf. cbn. rewrite Ha. cbn. rewrite Hp. cbn. rewrite Hb. cbn.
  destruct (Z.ltb_spec (a - b) 0) as [_|]; [done|lia].
Qed.

(** The loop over a block of fields whose deltas are not negative. *)
Lemma scan_block fb : ∀ fa pa pb nb np v k rest rest',
  length pa = length fa → length (delta_fields v) = length fa →
  denotes fb nb → denotes pb np → length pb = length fb →
  Forall (λ d, 0 ≤ d) (deltas nb np) →
  scan (seq (length fa) (length fb + k))
    (fa ++ fb ++ rest) (pa ++ pb ++ rest') v
  = scan (seq (length fa + length fb) k)
      (fa ++ fb ++ rest) (pa ++ pb ++ rest')
      {| delta_fields := delta_fields v ++ deltas nb np;
         used_delta := used_delta v + used_from (length fa) (deltas nb np);
         reboot := reboot v |}.
Proof.
  induction fb as [|f fb IH];
    intros fa pa pb nb np v k rest rest' Hpa Hv Hnb Hnp Hlen Hd.
  - destruct pb; [|done].
    apply denotes_nil_inv in Hnb as ->. apply denotes_nil_inv in Hnp as ->.
    cbn. rewrite Nat.add_0_r, app_nil_r, Z.add_0_r. by destruct v.
  - destruct pb as [|p pb]; [done|].
    apply denotes_cons_inv in Hnb as (a & nb' & -> & Ha & Hnb).
    apply denotes_cons_inv in Hnp as (b & np' & -> & Hb & Hnp).
    cbn in Hd. apply Forall_cons in Hd as [Hab Hd].
    cbn [length Nat.add seq].
    rewrite (scan_step _ _ _ _ _ f p a b); [|by apply list_lookup_middle
      |done|by apply list_lookup_middle|done|done|done].
    specialize (IH (fa ++ [f]) (pa ++ [p]) pb nb' np'
      {| delta_fields := delta_fields v ++ [a - b];
         used_delta := used_delta v
                       + (if Nat.eqb (length fa) 3 then 0 else a - b);
         reboot := reboot v |} k rest rest').
    rewrite !length_app in IH. cbn [length] in IH.
    rewrite <- !(assoc_L (++)) in IH. cbn [app] in IH.
    rewrite !Nat.add_1_r in IH.
    cbn [app]. rewrite IH;
      [|lia|cbn; rewrite length_app; cbn; lia|done|done
       |cbn in Hlen; lia|done].
    cbn [delta_fields used_delta reboot deltas zip_with used_from].
    rewrite <- (assoc_L (++)). cbn [app].
    replace (length fa + S (length fb))%nat
      with (S (length fa + length fb)) by lia.
    by rewrite Z.add_assoc.
Qed.

Lemma used_from_above i d : (3 < i)%nat → used_from i d = sum_Z d.
Proof.
  revert i. induction d as [|x d IH]; intros i Hi; [done|].
  cbn. rewrite IH by lia.
  destruct (Nat.eqb_spec i 3); [lia|done].
Qed.

Lemma used_from_below i d :
  (i ≤ 3)%nat → used_from i d = sum_Z (delete (3 - i)%nat d).
Proof.
  revert i. induction d as [|x d IH]; intros i Hi; [done|].
  cbn [used_from]. destruct (Nat.eqb_spec i 3) as [->|Hne].
  - cbn. by rewrite used_from_above by lia.
  - rewrite IH by lia.
    replace (3 - i)%nat with (S (3 - S i)) by lia. done.
Qed.

Lemma used_from_0 d : used_from 0 d = used d.
Proof. by rewrite used_from_below by lia. Qed.

Lemma used_from_nonneg d i : Forall (λ x, 0 ≤ x) d → 0 ≤ used_from i d.
Proof.
  intros H. revert i. induction H as [|x d Hx _ IH]; intros i; [done|].
  cbn. specialize (IH (S i)). destruct (Nat.eqb i 3); lia.
Qed.

Lemma deltas_length new previous :
  length previous = length new → length (deltas new previous) = length new.
Proof. intros H. unfold deltas. rewrite length_zip_with. lia. Qed.

End Scan.

(** ** The ratio of a tick *)

Section Usage.
Implicit Types (fields previous_fields : list string) (new previous d : list Z).

Lemma idle_nonneg d : Forall (λ x, 0 ≤ x) d → 0 ≤ idle d.
Proof.
  intros H. unfold idle. destruct (d !! 3%nat) as [x|] eqn:Hx; [|done].
  by apply (Forall_lookup_1 _ _ _ _ H Hx).
Qed.

Lemma used_nonneg d : Forall (λ x, 0 ≤ x) d → 0 ≤ used d.
Proof. intros H. rewrite <- used_from_0. by apply used_from_nonneg. Qed.

Lemma ratio_bounds d :
  0 ≤ used d → 0 ≤ idle d → 0 < used d + idle d →
  (0 <= ratio d)%Q ∧ (ratio d <= 1)%Q.
Proof.
  intros Hu Hi Hpos. unfold ratio.
  assert (0 < inject_Z (used d + idle d))%Q as Hq.
  { change 0%Q with (inject_Z 0). by rewrite <- Zlt_Qlt. }
  split.
  - apply Qle_shift_div_l; [done|]. rewrite Qmult_0_l.
    change 0%Q with (inject_Z 0). by rewrite <- Zle_Qle.
  - apply Qle_shift_div_r; [done|]. rewrite Qmult_1_l.
    rewrite <- Zle_Qle. lia.
Qed.

Lemma range_check_keeps q :
  (0 <= q)%Q → (q <= 1)%Q → range_check (Some q) = Some q.
Proof.
  intros H0 H1. unfold range_check, Qltb.
  apply Qle_bool_iff in H0 as ->. by apply Qle_bool_iff in H1 as ->.
Qed.

(** Deltas that are all non-negative: the loop runs to its end and the
    ratio is taken unless the divisor is zero. *)
Lemma usage_of_steady fields previous_fields new previous :
  denotes fields new → denotes previous_fields previous →
  length previous_fields = length fields → (4 ≤ length fields)%nat →
  Forall (λ x, 0 ≤ x) (deltas new previous) →
  usage_of fields previous_fields
  = Ok (if used (deltas new previous) + idle (deltas new previous) =? 0
        then None else Some (ratio (deltas new previous))).
Proof.
  intros Hn Hp Hlen H4 Hd. unfold usage_of.
  pose proof (scan_block fields [] [] previous_fields new previous
                loop_init 0 [] [] eq_refl eq_refl Hn Hp Hlen Hd) as Hs.
  cbn in Hs. rewrite !app_nil_r, Nat.add_0_r in Hs. rewrite Hs. cbn.
  rewrite used_from_0.
  pose proof (denotes_length _ _ Hn). pose proof (denotes_length _ _ Hp).
  destruct (lookup_lt_is_Some_2 (deltas new previous) 3) as [x Hx].
  { rewrite deltas_length; lia. }
  unfold Py.index, ratio, idle. rewrite Hx. cbn.
  rewrite (Z.add_comm x). by destruct (_ =? 0).
Qed.

(** A negative delta after a block of non-negative ones: the loop breaks
    there, whatever follows in either list. *)
Lemma usage_of_reboot f1 fx rest p1 py rest' n1 m1 x y :
  denotes f1 n1 → denotes p1 m1 → length p1 = length f1 →
  Forall (λ z, 0 ≤ z) (deltas n1 m1) →
  Py.parse_int fx = Some x → Py.parse_int py = Some y → x - y < 0 →
  usage_of (f1 ++ fx :: rest) (p1 ++ py :: rest') = Ok None.
Proof.
  intros Hn Hm Hlen Hd Hx Hy Hneg. unfold usage_of.
  rewrite length_app. cbn [length].
  pose proof (scan_block f1 [] [] p1 n1 m1 loop_init (S (length rest))
                (fx :: rest) (py :: rest') eq_refl eq_refl Hn Hm Hlen Hd)
    as Hs.
  cbn [app length Nat.add] in Hs. rewrite Hs. cbn [seq].
  rewrite (scan_break _ _ _ _ _ fx py x y);
    [done|by apply list_lookup_middle|done
    |by apply list_lookup_middle|done|done].
Qed.

(** Where the first negative delta is. *)
Lemma first_negative_split new : ∀ previous,
  length previous = length new →
  Exists (λ x, x < 0) (deltas new previous) →
  ∃ n1 x n2 m1 y m2,
    new = n1 ++ x :: n2 ∧ previous = m1 ++ y :: m2 ∧
    length m1 = length n1 ∧ Forall (λ z, 0 ≤ z) (deltas n1 m1) ∧ x - y < 0.
Proof.
  induction new as [|a new IH]; intros [|b previous] Hlen Hex;
    try (by inversion Hex).
  destruct (Z.lt_ge_cases (a - b) 0) as [Hneg|Hpos].
  - by exists [], a, new, [], b, previous.
  - cbn in Hex. apply Exists_cons in Hex as [?|Hex]; [lia|].
    destruct (IH previous) as (n1 & x & n2 & m1 & y & m2 & -> & -> & ? & ? & ?);
      [cbn in Hlen; lia|done|].
    exists (a :: n1), x, n2, (b :: m1), y, m2.
    split_and!; [done|done|cbn; lia| |done].
    cbn. by constructor.
Qed.

Lemma first_negative_middle n1 x n2 m1 y m2 :
  length m1 = length n1 → Forall (λ z, 0 ≤ z) (deltas n1 m1) → x - y < 0 →
  first_negative (deltas (n1 ++ x :: n2) (m1 ++ y :: m2)) (length n1).
Proof.
  intros Hlen Hd Hneg. unfold deltas in *.
  rewrite zip_with_app by done. cbn [zip_with].
  assert (length (zip_with Z.sub n1 m1) = length n1) as Hl.
  { rewrite length_zip_with. lia. }
  split.
  - exists (x - y). split; [|done]. by apply list_lookup_middle.
  - intros j z Hj Hz. rewrite lookup_app_l in Hz by lia.
    by apply (Forall_lookup_1 _ _ _ _ Hd Hz).
Qed.

(** A negative delta among the deltas of two samples of the same length:
    the verdict is fixed by the fields up to the first negative delta. *)
Lemma reboot_decided fields previous_fields new previous :
  denotes fields new → denotes previous_fields previous →
  length previous = length new →
  Exists (λ z, z < 0) (deltas new previous) →
  ∃ i, first_negative (deltas new previous) i ∧
    ∀ fields' previous_fields',
      take (S i) fields' = take (S i) fields →
      take (S i) previous_fields' = take (S i) previous_fields →
      usage_of fields' previous_fields' = Ok None.
Proof.
  intros Hn Hp Hlen Hex.
  destruct (first_negative_split _ _ Hlen Hex)
    as (n1 & x & n2 & m1 & y & m2 & -> & -> & Hl & Hd & Hneg).
  apply denotes_middle_inv in Hn as (f1 & fx & f2 & -> & Hf1 & Hfx & Hlf).
  apply denotes_middle_inv in Hp as (p1 & py & p2 & -> & Hp1 & Hpy & Hlp).
  exists (length n1). split; [by apply first_negative_middle|].
  intros fields' previous' Hf Hq.
  rewrite <- (take_drop (S (length n1)) fields'), Hf.
  rewrite <- (take_drop (S (length n1)) previous'), Hq.
  rewrite (cons_middle fx f1 f2), (cons_middle py p1 p2), !(assoc_L (++)).
  rewrite !take_app_length' by (rewrite length_app; cbn; lia).
  rewrite <- !(assoc_L (++)). cbn [app].
  eapply usage_of_reboot; [done..|lia|done|done|done|done].
Qed.



End Usage.

(** ** The claims on [_get_cpu_usage] *)





(** C3.  For two samples of ten integer counters with a negative delta
    somewhere, [_get_cpu_usage] returns absent and still persists the new
    fields.  The scan stops at the first negative delta: the fields after it
    are not examined, so the same verdict is reached for any other pair of
    token lists that agrees with the two samples up to that position,
    whatever follows there. *)
Theorem reboot_detected (persist : gmap string (list string)) text
    previous_fields new previous :
  persist !! LAST_MESURE_KEY = Some previous_fields →
  denotes (stat_fields text) new → denotes previous_fields previous →
  length new = 10%nat → length previous = 10%nat →
  Exists (λ z, z < 0) (deltas new previous) →
  _get_cpu_usage persist (Readable text)
  = Ok (None, <[LAST_MESURE_KEY := stat_fields text]> persist)
  ∧ ∃ i, first_negative (deltas new previous) i ∧
      ∀ (persist' : gmap string (list string)) text' previous_fields',
        persist' !! LAST_MESURE_KEY = Some previous_fields' →
        take (S i) (stat_fields text') = take (S i) (stat_fields text) →
        take (S i) previous_fields' = take (S i) previous_fields →
        _get_cpu_usage persist' (Readable text')
        = Ok (None, <[LAST_MESURE_KEY := stat_fields text']> persist').
Proof.
  intros Hp Hn Hq Hln Hlq Hex.
  destruct (reboot_decided _ _ _ _ Hn Hq) as (i & Hi & Hrest); [lia|done|].
  split.
  - unfold _get_cpu_usage. rewrite Hp. by rewrite Hrest.
  - exists i. split; [done|].
    intros persist' text' previous_fields' Hp' Hf Hq'.
    unfold _get_cpu_usage. rewrite Hp'. by rewrite Hrest.
Qed.

Lemma reboot_detected_witness :
  _get_cpu_usage store_before_reboot (Readable text_after_reboot)
  = Ok (None,
        <[LAST_MESURE_KEY := stat_fields text_after_reboot]> store_before_reboot).
Proof.
  refine (proj1 (reboot_detected store_before_reboot text_after_reboot
                   sample_before_reboot counters_after_reboot
                   counters_before_reboot _ _ _ _ _ _)).
  - reflexivity.
  - reflexivity.
  - reflexivity.
  - reflexivity.
  - reflexivity.
  - apply Exists_cons_hd. reflexivity.
Defined.

(** C7.  For two samples of ten integer counters whose deltas are all
    non-negative and whose divisor [used + idle] is zero (two identical
    samples, for one), [_get_cpu_usage] returns absent, without raising. *)
Theorem zero_divisor_absent (persist : gmap string (list string)) text
    previous_fields new previous :
  persist !! LAST_MESURE_KEY = Some previous_fields →
  denotes (stat_fields text) new → denotes previous_fields previous →
  length new = 10%nat → length previous = 10%nat →
  Forall (λ z, 0 ≤ z) (deltas new previous) →
  used (deltas new previous) + idle (deltas new previous) = 0 →
  _get_cpu_usage persist (Readable text)
  = Ok (None, <[LAST_MESURE_KEY := stat_fields text]> persist).
Proof.
  intros Hp Hn Hq Hln Hlq Hd Hzero.
  pose proof (denotes_length _ _ Hn). pose proof (denotes_length _ _ Hq).
  unfold _get_cpu_usage. rewrite Hp.
  rewrite (usage_of_steady _ _ _ _ Hn Hq) by (done || lia).
  by rewrite Hzero.
Qed.

Lemma zero_divisor_absent_witness :
  _get_cpu_usage store_t0 (Readable text_t0)
  = Ok (None, <[LAST_MESURE_KEY := stat_fields text_t0]> store_t0).
Proof.
  apply (zero_divisor_absent store_t0 text_t0 sample_t0 counters_t0 counters_t0).
  - reflexivity.
  - reflexivity.
  - reflexivity.
  - reflexivity.
  - reflexivity.
  - cbn. repeat (constructor; [lia|]). constructor.
  - reflexivity.
Defined.

(** C8.  On the first call, when the store holds no previous sample,
    [_get_cpu_usage] returns absent and records the fields just read as the
    previous sample of the next call. *)
Theorem first_run_absent (persist : gmap string (list string)) text :
  persist !! LAST_MESURE_KEY = None →
  _get_cpu_usage persist (Readable text)
  = Ok (None, <[LAST_MESURE_KEY := stat_fields text]> persist)
  ∧ (<[LAST_MESURE_KEY := stat_fields text]> persist) !! LAST_MESURE_KEY
    = Some (stat_fields text).
Proof.
  intros Hp. split; [|by rewrite lookup_insert_eq].
  unfold _get_cpu_usage. by rewrite Hp.
Qed.

Lemma first_run_absent_witness :
  _get_cpu_usage ∅ (Readable text_t0)
  = Ok (None, <[LAST_MESURE_KEY := stat_fields text_t0]> ∅)
  ∧ (<[LAST_MESURE_KEY := stat_fields text_t0]>
       (∅ : gmap string (list string))) !! LAST_MESURE_KEY
    = Some (stat_fields text_t0).
Proof.
  apply (first_run_absent ∅ text_t0). reflexivity.
Defined.




(** ** The claim on the first line *)

(** C4, as a counterexample.  With one space after the label there is no
    empty token: the first counter is dropped with the label and nine fields
    are left. *)
Lemma one_space_after_label :
  stat_fields text_one_space = ["0"; "0"; "200"; "0"; "0"; "0"; "0"; "0"; "0"]
  ∧ length (stat_fields text_one_space) ≠ 10%nat.
Proof. split; [reflexivity|]. vm_compute. discriminate. Qed.

(** C4, amended.  For a first line made of a label token, two spaces, and ten
    decimal numerals with one space between them, the fields kept are
    exactly the ten numerals, in order: the label and the empty token
    between the two spaces are dropped.  [int()] reads each field as the
    non-negative integer it stands for. *)
Theorem first_line_fields label (tokens : list string) rest :
  label_token label = true →
  length tokens = 10%nat →
  Forall (λ t, numeral t = true) tokens →
  stat_fields (stat_line label tokens +:+ String Py.newline rest) = tokens
  ∧ length (stat_fields (stat_line label tokens +:+ String Py.newline rest))
    = 10%nat
  ∧ denotes (stat_fields (stat_line label tokens +:+ String Py.newline rest))
      (numeral_value <$> tokens)
  ∧ Forall (λ z, 0 ≤ z) (numeral_value <$> tokens).
Proof.
  intros [Hsp Hnl]%andb_true_iff Hlen Hnum.
  apply negb_true_iff in Hsp, Hnl.
  assert (Forall (λ t, has_char Py.space t = false) tokens) as Htsp.
  { eapply Forall_impl; [exact Hnum|]. intros t Ht.
    apply all_digits_has_char; [done|by apply numeral_all_digits]. }
  assert (Forall (λ t, has_char Py.newline t = false) tokens) as Htnl.
  { eapply Forall_impl; [exact Hnum|]. intros t Ht.
    apply all_digits_has_char; [done|by apply numeral_all_digits]. }
  assert (has_char Py.newline (stat_line label tokens) = false) as Hline.
  { unfold stat_line. rewrite has_char_app, Hnl. cbn [has_char orb].
    rewrite has_char_join by done. reflexivity. }
  assert (stat_fields (stat_line label tokens +:+ String Py.newline rest)
          = tokens) as Hfields.
  { unfold stat_fields. rewrite readline_app by done.
    rewrite remove_app, remove_absent by done.
    cbn [Py.remove]. rewrite Ascii.eqb_refl.
    assert (∀ s, s +:+ EmptyString = s) as ->.
    { induction s as [|a s IH]; [done|].
      change (String a (s +:+ EmptyString) = String a s). by rewrite IH. }
    unfold stat_line. rewrite split_app by done.
    cbn [Py.split]. rewrite Ascii.eqb_refl. cbn [drop].
    apply split_join; [done|]. by destruct tokens. }
  rewrite Hfields. split_and!; [done|done|by apply denotes_numerals|].
  apply Forall_fmap. eapply Forall_impl; [exact Hnum|].
  intros t Ht. by apply numeral_value_nonneg, numeral_all_digits.
Qed.

Lemma first_line_fields_witness :
  stat_fields (stat_line "cpu" sample_before_reboot
               +:+ String Py.newline "cpu0 1 2 3")
  = sample_before_reboot
  ∧ length (stat_fields (stat_line "cpu" sample_before_reboot
                         +:+ String Py.newline "cpu0 1 2 3")) = 10%nat
  ∧ denotes (stat_fields (stat_line "cpu" sample_before_reboot
                          +:+ String Py.newline "cpu0 1 2 3"))
      (numeral_value <$> sample_before_reboot)
  ∧ Forall (λ z, 0 ≤ z) (numeral_value <$> sample_before_reboot).
Proof.
  apply (first_line_fields "cpu" sample_before_reboot "cpu0 1 2 3").
  - reflexivity.
  - reflexivity.
  - repeat (constructor; [reflexivity|]). constructor.
Defined.

(** ** The claims on the orchestration *)

Section OrchestrationClaims.
Context {Point Monitor A : Type}.
Variable ping : Monitor → Monitor.
Variable accumulate : store A → Z → Q → string → option Point * store A.
Implicit Types (self : plugin Point Monitor A) (calls : list call).

Lemma run_step_data_points self t f :
  _cpu_usage_points (run_step_data ping accumulate self t f).1.1
  = _cpu_usage_points self.
Proof.
  unfold run_step_data. cbn.
  destruct (_get_cpu_usage _ _) as [e|[[usage|] entries']]; cbn; [done| |done].
  by destruct (accumulate _ _ _ _).
Qed.

(** A tick leaves the buffer as it was, or with one more point at its
    end: the step data of the tick. *)
Lemma run_points self t f :
  _cpu_usage_points (run ping accumulate self t f).1
  = _cpu_usage_points self
    ++ option_list (run_step_data ping accumulate self t f).1.2.
Proof.
  unfold run. pose proof (run_step_data_points self t f) as Hpts.
  destruct (run_step_data ping accumulate self t f) as [[self' [point|]] raised];
    cbn in *; rewrite Hpts; [done|]. by rewrite app_nil_r.
Qed.

(** One call keeps the account of the points: those handed over and those
    left in the buffer are those that were there and the one completed. *)
Lemma step_conservation c self :
  (step ping accumulate c self).1.1
  ++ _cpu_usage_points (step ping accumulate c self).2
  = _cpu_usage_points self ++ (step ping accumulate c self).1.2.
Proof.
  destruct c as [t f|  |urgent|[] urgent]; cbn.
  - apply run_points.
  - done.
  - unfold send_message. cbn.
    destruct (_cpu_usage_points self); cbn; [done|]. by rewrite !app_nil_r.
  - unfold send_message. cbn.
    destruct (_cpu_usage_points self); cbn; [done|]. by rewrite !app_nil_r.
  - by rewrite app_nil_r.
Qed.

(** Over any sequence of calls: the points handed over, followed by the
    points still in the buffer, are the points that were in the buffer at
    the start followed by the points completed since, in order. *)
Lemma play_conservation calls : ∀ self,
  (play ping accumulate calls self).1.1
  ++ _cpu_usage_points (play ping accumulate calls self).2
  = _cpu_usage_points self ++ (play ping accumulate calls self).1.2.
Proof.
  induction calls as [|c later IH]; intros self.
  - cbn. by rewrite app_nil_r.
  - cbn [play]. pose proof (step_conservation c self) as Hc.
    destruct (step ping accumulate c self) as [[sent produced] self1].
    specialize (IH self1).
    destruct (play ping accumulate later self1) as [[sent' produced'] self'].
    cbn in *.
    by rewrite <- (assoc_L (++)), IH, !(assoc_L (++)), Hc.
Qed.

Lemma play_ticks_sent (ticks : list (Z * stat_source)) : ∀ self,
  (play ping accumulate (uncurry Tick <$> ticks) self).1.1 = [].
Proof.
  induction ticks as [|[t f] ticks IH]; intros self; [done|].
  cbn [fmap list_fmap uncurry play step].
  specialize (IH (run ping accumulate self t f).1).
  by destruct (play ping accumulate _ _) as [[sent produced] self'].
Qed.

(** C6.  On a tick for which the statistics resource cannot be read,
    [_get_cpu_usage] returns absent and leaves the store as it is, and
    [run] returns with the persist store (the previous sample and the data
    of the accumulator) and the buffer unchanged; only the coverage
    monitor has been pinged.  The accumulator is not called: the outcome
    is the same whatever the accumulator is. *)
Theorem unreadable_tick_skipped self t :
  _get_cpu_usage (entries (_persist self)) Unreadable
  = Ok (None, entries (_persist self))
  ∧ run ping accumulate self t Unreadable
    = ({| _persist := _persist self;
          _monitor := ping (_monitor self);
          _cpu_usage_points := _cpu_usage_points self |}, None)
  ∧ (run_step_data ping accumulate self t Unreadable).1.2 = None
  ∧ ∀ accumulate' : store A → Z → Q → string → option Point * store A,
      run ping accumulate' self t Unreadable
      = run ping accumulate self t Unreadable.
Proof. by destruct self as [[entries data] monitor points]. Qed.

(** C10.  A tick appends at most one point to the buffer and leaves the
    points already there as they are, in place; [create_message] hands over
    the whole buffer and empties it, and no other call removes a point; so
    over any sequence of ticks and of [create_message], [send_message] and
    [exchange] calls, the points handed over followed by those still
    buffered are exactly the points buffered at the start followed by those
    completed since, each once and in the order of production. *)
Theorem buffer_append_only_drained_whole self t f calls :
  (∃ new, _cpu_usage_points (run ping accumulate self t f).1
          = _cpu_usage_points self ++ new
        ∧ (length new ≤ 1)%nat)
  ∧ cpu_usages (create_message self).1 = _cpu_usage_points self
  ∧ _cpu_usage_points (create_message self).2 = []
  ∧ (play ping accumulate calls self).1.1
    ++ _cpu_usage_points (play ping accumulate calls self).2
    = _cpu_usage_points self ++ (play ping accumulate calls self).1.2.
Proof.
  split_and!; [|done|done|apply play_conservation].
  exists (option_list (run_step_data ping accumulate self t f).1.2).
  split; [apply run_points|].
  destruct (run_step_data ping accumulate self t f).1.2; cbn; lia.
Qed.

(** C9.  [create_message] returns the buffer and leaves it empty; a second
    [create_message], with no point completed in between (directly, or
    after ticks that complete none), returns an empty sequence. *)
Theorem drain_twice self (ticks : list (Z * stat_source)) :
  (play ping accumulate (uncurry Tick <$> ticks) (create_message self).2).1.2
  = [] →
  cpu_usages (create_message self).1 = _cpu_usage_points self
  ∧ _cpu_usage_points (create_message self).2 = []
  ∧ cpu_usages
      (create_message
         (play ping accumulate (uncurry Tick <$> ticks)
            (create_message self).2).2).1
    = [].
Proof.
  intros Hnone. split_and!; [done..|].
  pose proof (play_conservation (uncurry Tick <$> ticks)
                (create_message self).2) as Hc.
  rewrite play_ticks_sent, Hnone in Hc. cbn [app] in Hc.
  cbn [create_message fst cpu_usages]. by rewrite Hc.
Qed.

End OrchestrationClaims.

Lemma drain_twice_witness :
  cpu_usages (create_message plugin_two_points).1
  = _cpu_usage_points plugin_two_points
  ∧ _cpu_usage_points (create_message plugin_two_points).2 = []
  ∧ cpu_usages
      (create_message
         (play S idle_accumulate (uncurry Tick <$> two_ticks)
            (create_message plugin_two_points).2).2).1
    = [].
Proof.
  apply (drain_twice S idle_accumulate plugin_two_points two_ticks).
  reflexivity.
Defined.

(** ** Further properties of the first line *)

Section FirstLine.
Implicit Types (s t : string) (c : ascii).

Lemma append_empty_r s : s +:+ EmptyString = s.
Proof.
  induction s as [|a s IH]; [done|].
  change (String a (s +:+ EmptyString) = String a s). by rewrite IH.
Qed.

Lemma remove_gone c s : has_char c (Py.remove c s) = false.
Proof.
  induction s as [|a s IH]; [done|]. cbn.
  destruct (Ascii.eqb a c) eqn:Ha; [done|]. cbn. by rewrite Ha, IH.
Qed.

Lemma split_tokens_absent c d s :
  (Ascii.eqb d c = true ∨ has_char d s = false) →
  Forall (λ t, has_char d t = false) (Py.split c s).
Proof.
  induction s as [|a s IH]; intros H; [by repeat constructor|].
  cbn. destruct (Ascii.eqb a c) eqn:Ha.
  - constructor; [done|]. apply IH. destruct H as [|H]; [by left|].
    right. cbn in H. by apply orb_false_iff in H as [_ ?].
  - assert (Ascii.eqb a d = false) as Had.
    { destruct H as [H|H].
      - apply Ascii.eqb_eq in H as ->. done.
      - cbn in H. by apply orb_false_iff in H as [? _]. }
    assert (Forall (λ t, has_char d t = false) (Py.split c s)) as IH'.
    { apply IH. destruct H as [|H]; [by left|].
      right. cbn in H. by apply orb_false_iff in H as [_ ?]. }
    destruct (Py.split c s) as [|tok toks]; [by repeat constructor; cbn; rewrite Had|].
    apply Forall_cons in IH' as [Htok Htoks].
    constructor; [|done]. cbn. by rewrite Had, Htok.
Qed.

Lemma split_length c s : length (Py.split c s) = S (count_char c s).
Proof.
  induction s as [|a s IH]; [done|]. cbn.
  destruct (Ascii.eqb a c); cbn; [by rewrite IH|].
  destruct (Py.split c s); cbn in *; lia.
Qed.

End FirstLine.

(** X1.  Only the first line of the file is read: whatever follows the first
    newline has no influence on the fields, which are the tokens of the
    first line, split at every space, without the first two. *)
Theorem only_first_line_read first_line rest :
  has_char Py.newline first_line = false →
  stat_fields (first_line +:+ String Py.newline rest)
  = drop 2 (Py.split Py.space first_line).
Proof.
  intros H. unfold stat_fields. rewrite readline_app by done.
  rewrite remove_app, remove_absent by done.
  cbn [Py.remove]. rewrite Ascii.eqb_refl. by rewrite append_empty_r.
Qed.

Lemma only_first_line_read_witness :
  stat_fields ("cpu  1 2 3 4" +:+ String Py.newline "cpu0 9 9 9 9")
  = drop 2 (Py.split Py.space "cpu  1 2 3 4").
Proof.
  apply (only_first_line_read "cpu  1 2 3 4" "cpu0 9 9 9 9"). reflexivity.
Defined.

(** X2.  Whatever the text of the file, no field kept from it contains a
    space or a newline. *)
Theorem fields_without_space_or_newline text :
  Forall (λ f, has_char Py.space f = false ∧ has_char Py.newline f = false)
    (stat_fields text).
Proof.
  unfold stat_fields. apply Forall_drop, Forall_and. split.
  - apply split_tokens_absent. by left.
  - apply split_tokens_absent. right. apply remove_gone.
Qed.

(** X3.  The number of fields is fixed by the number of spaces in the first
    line: one field per space, but for the first space.  A line without a
    space, or an empty file, gives no field. *)
Theorem fields_counted_by_spaces text :
  length (stat_fields text)
  = (count_char Py.space (Py.remove Py.newline (Py.readline text)) - 1)%nat.
Proof.
  unfold stat_fields. rewrite length_drop, split_length. lia.
Qed.

(** ** Samples of any width, and the lines that raise *)

Section Widths.
Implicit Types (fields previous_fields : list string) (v : loop_vars).




(** The whole loop on deltas that are not negative; the previous sample may
    have more tokens than the new one. *)
Lemma scan_all fields p1 extra new previous :
  denotes fields new → denotes p1 previous → length p1 = length fields →
  Forall (λ z, 0 ≤ z) (deltas new previous) →
  scan (seq 0 (length fields)) fields (p1 ++ extra) loop_init
  = Ok {| delta_fields := deltas new previous;
          used_delta := used (deltas new previous);
          reboot := false |}.
Proof.
  intros Hn Hp Hlen Hd.
  pose proof (scan_block fields [] [] p1 new previous loop_init 0 [] extra
                eq_refl eq_refl Hn Hp Hlen Hd) as Hs.
  cbn in Hs. rewrite !app_nil_r, Nat.add_0_r in Hs.
  by rewrite Hs, used_from_0.
Qed.

Lemma usage_of_wide fields p1 extra new previous :
  denotes fields new → denotes p1 previous → length p1 = length fields →
  (4 ≤ length fields)%nat →
  Forall (λ z, 0 ≤ z) (deltas new previous) →
  usage_of fields (p1 ++ extra)
  = Ok (if used (deltas new previous) + idle (deltas new previous) =? 0
        then None else Some (ratio (deltas new previous))).
Proof.
  intros Hn Hp Hlen H4 Hd. unfold usage_of.
  rewrite (scan_all _ _ _ _ _ Hn Hp Hlen Hd). cbn.
  pose proof (denotes_length _ _ Hn). pose proof (denotes_length _ _ Hp).
  destruct (lookup_lt_is_Some_2 (deltas new previous) 3) as [x Hx].
  { rewrite deltas_length; lia. }
  unfold Py.index, ratio, idle. rewrite Hx. cbn.
  rewrite (Z.add_comm x). by destruct (_ =? 0).
Qed.

Lemma usage_of_short fields p1 extra new previous :
  denotes fields new → denotes p1 previous → length p1 = length fields →
  (length fields < 4)%nat →
  Forall (λ z, 0 ≤ z) (deltas new previous) →
  usage_of fields (p1 ++ extra) = Raise IndexError.
Proof.
  intros Hn Hp Hlen H4 Hd. unfold usage_of.
  rewrite (scan_all _ _ _ _ _ Hn Hp Hlen Hd). cbn.
  pose proof (denotes_length _ _ Hn). pose proof (denotes_length _ _ Hp).
  unfold Py.index. rewrite lookup_ge_None_2; [done|].
  rewrite deltas_length; lia.
Qed.


Lemma get_cpu_usage_wide (persist : gmap string (list string)) text
    p1 extra new previous :
  persist !! LAST_MESURE_KEY = Some (p1 ++ extra) →
  denotes (stat_fields text) new → denotes p1 previous →
  length p1 = length (stat_fields text) →
  (4 ≤ length (stat_fields text))%nat →
  Forall (λ z, 0 ≤ z) (deltas new previous) →
  _get_cpu_usage persist (Readable text)
  = Ok (if used (deltas new previous) + idle (deltas new previous) =? 0
        then None else Some (ratio (deltas new previous)),
        <[LAST_MESURE_KEY := stat_fields text]> persist).
Proof.
  intros Hp Hn Hq Hlen H4 Hd. unfold _get_cpu_usage. rewrite Hp.
  rewrite (usage_of_wide _ _ _ _ _ Hn Hq Hlen H4 Hd). cbn.
  destruct (Z.eqb_spec (used (deltas new previous)
                        + idle (deltas new previous)) 0) as [|Hne]; [done|].
  destruct (ratio_bounds (deltas new previous)) as [Hge Hle].
  - by apply used_nonneg.
  - by apply idle_nonneg.
  - pose proof (used_nonneg _ Hd). pose proof (idle_nonneg _ Hd). lia.
  - by rewrite range_check_keeps.
Qed.

(** What a returning call leaves in the store. *)
Lemma returned_store (persist : gmap string (list string)) text r persist' :
  _get_cpu_usage persist (Readable text) = Ok (r, persist') →
  persist' = <[LAST_MESURE_KEY := stat_fields text]> persist.
Proof.
  unfold _get_cpu_usage.
  destruct (match persist !! LAST_MESURE_KEY with
            | Some previous_fields =>
                usage_of (stat_fields text) previous_fields
            | None => Ok None
            end) as [e|r0]; cbn; [done|].
  by intros [= <- <-].
Qed.

End Widths.

(** X4.  A first line that gives fewer than four fields, all integers, none
    below the matching counter of the previous sample: the loop ends
    without a reboot and [delta_fields[3]] raises [IndexError], which is not
    caught.  The store is not written. *)
Theorem short_line_raises (persist : gmap string (list string)) text
    p1 extra new previous :
  persist !! LAST_MESURE_KEY = Some (p1 ++ extra) →
  denotes (stat_fields text) new → denotes p1 previous →
  length p1 = length (stat_fields text) →
  (length (stat_fields text) < 4)%nat →
  Forall (λ z, 0 ≤ z) (deltas new previous) →
  _get_cpu_usage persist (Readable text) = Raise IndexError.
Proof.
  intros Hp Hn Hq Hlen H4 Hd. unfold _get_cpu_usage. rewrite Hp.
  by rewrite (usage_of_short _ _ _ _ _ Hn Hq Hlen H4 Hd).
Qed.

Lemma short_line_raises_witness :
  _get_cpu_usage {[ LAST_MESURE_KEY := ["100"; "0"; "50"] ]}
    (Readable text_short)
  = Raise IndexError.
Proof.
  apply (short_line_raises _ text_short ["100"; "0"; "50"] []
           [100; 0; 50] [100; 0; 50]).
  - reflexivity.
  - reflexivity.
  - reflexivity.
  - reflexivity.
  - vm_compute. lia.
  - cbn. repeat (constructor; [lia|]). constructor.
Defined.







(** ** The range check, and one read after another *)

Section Successive.
Implicit Types (fields previous_fields : list string) (v : loop_vars).

(** Whatever the tokens, the loop only ever records deltas that are not
    negative, and sums them. *)
Lemma scan_nonneg indices : ∀ fields previous_fields v v',
  scan indices fields previous_fields v = Ok v' →
  0 ≤ used_delta v → Forall (λ z, 0 ≤ z) (delta_fields v) →
  0 ≤ used_delta v' ∧ Forall (λ z, 0 ≤ z) (delta_fields v').
Proof.
  induction indices as [|i later IH]; intros fields previous_fields v v' H Hu Hd.
  { cbn in H. by injection H as <-. }
  cbn [scan] in H. unfold Py.index, Py.int in H.
  destruct (fields !! i) as [f|]; [|done]. cbn in H.
  destruct (Py.parse_int f) as [a|]; [|done]. cbn in H.
  destruct (previous_fields !! i) as [p|]; [|done]. cbn in H.
  destruct (Py.parse_int p) as [b|]; [|done]. cbn in H.
  destruct (Z.ltb_spec (a - b) 0) as [|Hab].
  { by injection H as <-. }
  assert (Forall (λ z, 0 ≤ z) (delta_fields v ++ [a - b])) as Hd'.
  { apply Forall_app. split; [done|]. by repeat constructor. }
  destruct (Nat.eqb i 3); cbn in H.
  - by apply IH in H.
  - destruct ((delta_fields v ++ [a - b]) !! i) as [d|] eqn:Hi; [|done].
    cbn in H. apply IH in H; [done| |done]. cbn.
    pose proof (Forall_lookup_1 _ _ _ _ Hd' Hi) as Hge. cbn in Hge. lia.
Qed.

Lemma quotient_bounds u i :
  0 ≤ u → 0 ≤ i → i + u ≠ 0 →
  (0 <= inject_Z u / inject_Z (i + u))%Q
  ∧ (inject_Z u / inject_Z (i + u) <= 1)%Q.
Proof.
  intros Hu Hi Hne.
  assert (0 < inject_Z (i + u))%Q as Hq.
  { change 0%Q with (inject_Z 0). rewrite <- Zlt_Qlt. lia. }
  split.
  - apply Qle_shift_div_l; [done|]. rewrite Qmult_0_l.
    change 0%Q with (inject_Z 0). by rewrite <- Zle_Qle.
  - apply Qle_shift_div_r; [done|]. rewrite Qmult_1_l.
    rewrite <- Zle_Qle. lia.
Qed.

Lemma deltas_self (n : list Z) : Forall (λ z, z = 0) (deltas n n).
Proof.
  induction n as [|x n IH]; cbn; [done|]. constructor; [lia|done].
Qed.

Lemma sum_Z_zero (l : list Z) : Forall (λ z, z = 0) l → sum_Z l = 0.
Proof.
  induction 1 as [|x l -> _ IH]; [done|].
  change (sum_Z (0 :: l)) with (0 + sum_Z l). by rewrite IH.
Qed.

Lemma returned_frame (persist : gmap string (list string)) source r persist'
    key :
  _get_cpu_usage persist source = Ok (r, persist') →
  key ≠ LAST_MESURE_KEY → persist' !! key = persist !! key.
Proof.
  destruct source as [|text].
  - by intros [= <- <-].
  - intros ->%returned_store Hkey. by rewrite lookup_insert_ne.
Qed.

Lemma returned_previous (persist : gmap string (list string)) source r
    persist' :
  _get_cpu_usage persist source = Ok (r, persist') →
  is_Some (persist !! LAST_MESURE_KEY) →
  is_Some (persist' !! LAST_MESURE_KEY).
Proof.
  destruct source as [|text].
  - by intros [= <- <-].
  - intros ->%returned_store _. by rewrite lookup_insert_eq.
Qed.


End Successive.

(** X8.  The final range check never discards anything: whenever the loop
    and the division give a result, it is absent or a ratio between 0 and 1,
    whatever the tokens of the two samples are, and the check returns it
    unchanged. *)
Theorem range_check_never_discards fields previous_fields r :
  usage_of fields previous_fields = Ok r →
  range_check r = r.
Proof.
  unfold usage_of.
  destruct (scan _ fields previous_fields loop_init) as [e|v] eqn:Hs;
    cbn; [done|].
  apply scan_nonneg in Hs as [Hu Hd]; [|done|by constructor].
  destruct (reboot v); cbn; [by intros [= <-]|].
  unfold Py.index.
  destruct (delta_fields v !! 3%nat) as [i|] eqn:Hi; cbn; [|done].
  pose proof (Forall_lookup_1 _ _ _ _ Hd Hi) as Hge. cbn in Hge.
  destruct (Z.eqb_spec (i + used_delta v) 0) as [|Hne]; cbn;
    intros [= <-]; [done|].
  destruct (quotient_bounds (used_delta v) i) as [H0 H1]; [done..|].
  by apply range_check_keeps.
Qed.

Lemma range_check_never_discards_witness :
  range_check (Some (ratio (deltas counters_t30 counters_t0)))
  = Some (ratio (deltas counters_t30 counters_t0)).
Proof.
  apply (range_check_never_discards (stat_fields text_t30) sample_t0).
  reflexivity.
Defined.



(** X10.  Reading the same first line twice in a row gives no ratio the
    second time: for a line of four or more integer fields, the read after
    a read of that line that returned returns absent and leaves the store
    as it is. *)
Theorem same_line_twice_absent (persist : gmap string (list string))
    text r1 persist1 n :
  _get_cpu_usage persist (Readable text) = Ok (r1, persist1) →
  denotes (stat_fields text) n →
  (4 ≤ length (stat_fields text))%nat →
  _get_cpu_usage persist1 (Readable text) = Ok (None, persist1).
Proof.
  intros ->%returned_store Hn H4.
  pose proof (deltas_self n) as Hz.
  rewrite (get_cpu_usage_wide _ text (stat_fields text) [] n n);
    [|by rewrite app_nil_r, lookup_insert_eq|done..|].
  - unfold used, idle. rewrite sum_Z_zero by by apply Forall_delete.
    destruct (deltas n n !! 3%nat) as [i|] eqn:Hi; cbn.
    + rewrite (Forall_lookup_1 _ _ _ _ Hz Hi). cbn.
      by rewrite insert_insert_eq.
    + by rewrite insert_insert_eq.
  - eapply Forall_impl; [exact Hz|]. cbn. lia.
Qed.

Lemma same_line_twice_absent_witness :
  _get_cpu_usage (<[LAST_MESURE_KEY := stat_fields text_t30]> store_t0)
    (Readable text_t30)
  = Ok (None, <[LAST_MESURE_KEY := stat_fields text_t30]> store_t0).
Proof.
  apply (same_line_twice_absent store_t0 text_t30
           (Some (ratio (deltas counters_t30 counters_t0))) _ counters_t30).
  - reflexivity.
  - reflexivity.
  - vm_compute. lia.
Defined.

(** X11.  Over any sequence of reads, readable or not, returning or
    raising, [_get_cpu_usage] writes no key of the store but
    [LAST_MESURE_KEY]. *)
Theorem reads_touch_one_key sources :
  ∀ (persist : gmap string (list string)) key,
    key ≠ LAST_MESURE_KEY →
    feed sources persist !! key = persist !! key.
Proof.
  induction sources as [|source later IH]; intros persist key Hkey; [done|].
  cbn. destruct (_get_cpu_usage persist source) as [e|[r persist']] eqn:Hg.
  - by apply IH.
  - rewrite IH by done. by eapply returned_frame.
Qed.

Lemma reads_touch_one_key_witness :
  feed [Readable text_t0; Unreadable; Readable text_not_a_number;
        Readable text_t30]
    {[ ACCUMULATOR_KEY := ["kept"] ]} !! ACCUMULATOR_KEY
  = ({[ ACCUMULATOR_KEY := ["kept"] ]} : gmap string (list string))
      !! ACCUMULATOR_KEY.
Proof.
  apply (reads_touch_one_key
           [Readable text_t0; Unreadable; Readable text_not_a_number;
            Readable text_t30]).
  vm_compute. discriminate.
Defined.

(** X12.  Once a previous sample is stored, one stays stored: no sequence of
    reads, whatever their outcomes, removes it. *)
Theorem previous_sample_never_removed sources :
  ∀ persist : gmap string (list string),
    is_Some (persist !! LAST_MESURE_KEY) →
    is_Some (feed sources persist !! LAST_MESURE_KEY).
Proof.
  induction sources as [|source later IH]; intros persist Hp; [done|].
  cbn. destruct (_get_cpu_usage persist source) as [e|[r persist']] eqn:Hg.
  - by apply IH.
  - apply IH. by eapply returned_previous.
Qed.

Lemma previous_sample_never_removed_witness :
  is_Some (feed [Readable text_after_reboot; Unreadable; Readable text_short]
             store_before_reboot !! LAST_MESURE_KEY).
Proof.
  apply (previous_sample_never_removed
           [Readable text_after_reboot; Unreadable; Readable text_short]).
  exists sample_before_reboot. reflexivity.
Defined.







(** ** Further properties of the orchestration *)

Section OrchestrationExtras.
Context {Point Monitor A : Type}.
Variable ping : Monitor → Monitor.
Variable accumulate : store A → Z → Q → string → option Point * store A.
Implicit Types (self : plugin Point Monitor A) (calls : list call).

Lemma step_monitor c self :
  _monitor (step ping accumulate c self).2
  = match c with
    | Tick _ _ => ping (_monitor self)
    | _ => _monitor self
    end.
Proof.
  destruct c as [t f|  |urgent|[] urgent]; cbn; try done.
  - unfold run, run_step_data. cbn.
    destruct (_get_cpu_usage _ _) as [e|[[usage|] entries']]; cbn; [done| |done].
    by destruct (accumulate _ _ _ _) as [[point|] persist].
  - unfold send_message. cbn. by destruct (_cpu_usage_points self).
  - unfold send_message. cbn. by destruct (_cpu_usage_points self).
Qed.

Lemma step_produced c self :
  (length (step ping accumulate c self).1.2
   ≤ match c with Tick _ _ => 1 | _ => 0 end)%nat.
Proof.
  destruct c as [t f|  |urgent|[] urgent]; cbn; try done.
  - destruct (run_step_data ping accumulate self t f).1.2; cbn; lia.
  - unfold send_message. cbn. by destruct (_cpu_usage_points self).
  - unfold send_message. cbn. by destruct (_cpu_usage_points self).
Qed.

Lemma play_produced calls : ∀ self,
  (length (play ping accumulate calls self).1.2 ≤ ticks_in calls)%nat.
Proof.
  induction calls as [|c later IH]; intros self; [done|].
  cbn [play]. pose proof (step_produced c self) as Hc.
  destruct (step ping accumulate c self) as [[sent produced] self1].
  specialize (IH self1).
  destruct (play ping accumulate later self1) as [[sent' produced'] self'].
  cbn in *. rewrite length_app. destruct c; cbn; lia.
Qed.


(** X16.  [send_message] always leaves the buffer empty.  It hands a message
    to the broker exactly when the buffer held a point: the message then
    has the type of the plugin, all the points of the buffer in their order,
    and the [urgent] flag as given.  An empty message is never handed
    over. *)
Theorem send_message_never_empty self urgent :
  _cpu_usage_points (send_message self urgent).2 = []
  ∧ ((send_message self urgent).1 = None ↔ _cpu_usage_points self = [])
  ∧ ∀ msg flag,
      (send_message self urgent).1 = Some (msg, flag) →
      cpu_usages msg = _cpu_usage_points self
      ∧ cpu_usages msg ≠ []
      ∧ type msg = "cpu-usage"
      ∧ flag = urgent.
Proof.
  unfold send_message. cbn.
  destruct (_cpu_usage_points self) as [|point points]; cbn.
  - split_and!; [done|done|]. by intros msg flag.
  - split_and!; [done|by split|]. by intros msg flag [= <- <-].
Qed.


(** X18.  A tick on which [_get_cpu_usage] gives no ratio, by returning
    absent or by raising, does not call the accumulator and does not touch
    the buffer: the data of the accumulator and the buffer are as before,
    the entries of the store are those [_get_cpu_usage] left, and the outcome
    is the same whatever the accumulator is. *)
Theorem tick_without_ratio self t stat_file :
  (∀ q entries',
     _get_cpu_usage (entries (_persist self)) stat_file
     ≠ Ok (Some q, entries')) →
  accumulator_data (_persist (run ping accumulate self t stat_file).1)
  = accumulator_data (_persist self)
  ∧ entries (_persist (run ping accumulate self t stat_file).1)
    = feed [stat_file] (entries (_persist self))
  ∧ _cpu_usage_points (run ping accumulate self t stat_file).1
    = _cpu_usage_points self
  ∧ ∀ accumulate' : store A → Z → Q → string → option Point * store A,
      run ping accumulate' self t stat_file
      = run ping accumulate self t stat_file.
Proof.
  intros Hno. unfold run, run_step_data. cbn.
  destruct (_get_cpu_usage (entries (_persist self)) stat_file)
    as [e|[[q|] entries']] eqn:Hg; cbn; [done| |done].
  by destruct (Hno q entries').
Qed.

(** X19.  The coverage monitor is pinged once by every tick, whether the tick
    gives a ratio, is skipped or raises, and by no other call: after any
    sequence of calls it has been pinged as often as there were ticks. *)
Theorem monitor_pinged_once_per_tick calls : ∀ self,
  _monitor (play ping accumulate calls self).2
  = Nat.iter (ticks_in calls) ping (_monitor self).
Proof.
  induction calls as [|c later IH]; intros self; [done|].
  cbn [play]. pose proof (step_monitor c self) as Hc.
  destruct (step ping accumulate c self) as [[sent produced] self1].
  specialize (IH self1).
  destruct (play ping accumulate later self1) as [[sent' produced'] self'].
  cbn [fst snd] in *. rewrite IH, Hc.
  destruct c; cbn [ticks_in]; [|done..]. by rewrite Nat.iter_succ_r.
Qed.

(** X20.  Over any sequence of calls, the points handed over and the points
    left in the buffer are together at most the points buffered at the
    start plus one per tick. *)
Theorem at_most_one_point_per_tick calls self :
  (length (play ping accumulate calls self).1.1
   + length (_cpu_usage_points (play ping accumulate calls self).2)
   ≤ length (_cpu_usage_points self) + ticks_in calls)%nat.
Proof.
  pose proof (play_conservation ping accumulate calls self) as Hc.
  pose proof (play_produced calls self) as Hp.
  apply (f_equal length) in Hc. rewrite !length_app in Hc. lia.
Qed.

End OrchestrationExtras.


Lemma tick_without_ratio_witness :
  accumulator_data
    (_persist (run S idle_accumulate plugin_two_points 1000
                 (Readable text_t0)).1)
  = accumulator_data (_persist plugin_two_points)
  ∧ entries
      (_persist (run S idle_accumulate plugin_two_points 1000
                   (Readable text_t0)).1)
    = feed [Readable text_t0] (entries (_persist plugin_two_points))
  ∧ _cpu_usage_points
      (run S idle_accumulate plugin_two_points 1000 (Readable text_t0)).1
    = _cpu_usage_points plugin_two_points
  ∧ ∀ accumulate' : store unit → Z → Q → string
                    → option (Z * Q) * store unit,
      run S accumulate' plugin_two_points 1000 (Readable text_t0)
      = run S idle_accumulate plugin_two_points 1000 (Readable text_t0).
Proof.
  apply (tick_without_ratio S idle_accumulate plugin_two_points 1000
           (Readable text_t0)).
  intros q entries' H. vm_compute in H. discriminate H.
Defined.

Lemma send_message_never_empty_witness :
  cpu_usages
    ({| type := "cpu-usage";
        cpu_usages := _cpu_usage_points plugin_two_points |}
     : message (Z * Q))
  = _cpu_usage_points plugin_two_points
  ∧ cpu_usages
      ({| type := "cpu-usage";
          cpu_usages := _cpu_usage_points plugin_two_points |}
       : message (Z * Q)) ≠ []
  ∧ type ({| type := "cpu-usage";
             cpu_usages := _cpu_usage_points plugin_two_points |}
          : message (Z * Q)) = "cpu-usage"
  ∧ true = true.
Proof.
  apply (proj2 (proj2 (send_message_never_empty plugin_two_points true))).
  reflexivity.
Defined.
